(** * pyasic: the BFGMiner API client ([pyasic/API/bfgminer.py])

    A shallow embedding of [BFGMinerAPI]: the multicommand orchestrator with
    its sequential fallback, and the command methods that build the
    parameter string handed to [send_command].

    [BFGMinerAPI] inherits [send_command] and [_check_commands] from
    [BaseMinerAPI], which lives in another module.  Both are taken as
    parameters of the development: the miner behind the socket is a
    transition function on an abstract world, and the allow-list filter is
    an arbitrary function on command lists. *)

From Stdlib Require Import ZArith String Ascii List.
From stdpp Require Import base option list gmap strings pretty.

Local Open Scope string_scope.
Local Open Scope Z_scope.

(** ** Python values *)

#[local] Set Warnings "-register-all,-clear-no-such-hyp".

(** The JSON-like values a reply is made of.  A [dict] with string keys is
    a finite map; a [list] is a list. *)
Inductive value : Type :=
  | VNone
  | VBool (b : bool)
  | VInt (z : Z)
  | VStr (s : string)
  | VList (l : list value)
  | VDict (d : gmap string value).

(** A reply is a [dict] from string keys to values. *)
Abbreviation reply := (gmap string value).

(** What [parameters=] receives: the methods pass an [int], a [bool] or an
    already formatted [str]. *)
Inductive param : Type :=
  | PInt (z : Z)
  | PBool (b : bool)
  | PStr (s : string).

(** ** Exceptions

    The handlers of the module tell three classes apart: [APIError], any
    other subclass of [Exception], and what is a [BaseException] only
    (cancellation of the task, a keyboard interrupt). *)
Inductive exn : Type :=
  | APIError (msg : string)
  | Exception (msg : string)
  | BaseException (msg : string).

Definition is_APIError (e : exn) : bool :=
  match e with APIError _ => true | _ => false end.

(** [isinstance(e, Exception)] *)
Definition is_Exception (e : exn) : bool :=
  match e with BaseException _ => false | _ => true end.

Inductive result (A : Type) : Type :=
  | Ok (a : A)
  | Raise (e : exn).
Arguments Ok {A} a.
Arguments Raise {A} e.

Definition is_Ok {A} (r : result A) : bool :=
  match r with Ok _ => true | Raise _ => false end.

(** ** Python string primitives *)

(** [sep.join(l)] *)
Fixpoint str_join (sep : string) (l : list string) : string :=
  match l with
  | [] => ""
  | [x] => x
  | x :: rest => x ++ sep ++ str_join sep rest
  end.

(** [s.split(sep)] for a separator of one character: the text is cut at
    every occurrence, so the result is never empty and [""] gives [[""]]. *)
Fixpoint str_split (sep : ascii) (s : string) : list string :=
  match s with
  | EmptyString => [EmptyString]
  | String c s' =>
      if Ascii.eqb c sep then EmptyString :: str_split sep s'
      else match str_split sep s' with
           | [] => [String c EmptyString]
           | w :: ws => String c w :: ws
           end
  end.

(** [sep in s] for a separator of one character. *)
Fixpoint str_contains (sep : ascii) (s : string) : bool :=
  match s with
  | EmptyString => false
  | String c s' => Ascii.eqb c sep || str_contains sep s'
  end.

(** [str(z)] for an [int]. *)
Definition str_of_int (z : Z) : string := pretty z.

(** How an f-string renders an [Optional[int]]. *)
Definition str_of_optional_int (val : option Z) : string :=
  match val with
  | None => "None"
  | Some z => str_of_int z
  end.

(** [l.append(x)] on the value [l]. *)
Definition append (x : value) (l : value) : value :=
  match l with
  | VList xs => VList (xs ++ [x])
  | other => other
  end.

(** Truth value of an [Optional[int]] argument in [if val:]. *)
Definition truthy (val : option Z) : bool :=
  match val with
  | None => false
  | Some z => negb (z =? 0)
  end.

(** Truth value of an [Optional[str]] argument in [if filename:]. *)
Definition truthy_str (val : option string) : bool :=
  match val with
  | None => false
  | Some EmptyString => false
  | Some (String _ _) => true
  end.

(** How an f-string renders a [bool]. *)
Definition str_of_bool (b : bool) : string :=
  if b then "True" else "False".

(** ** Calls and logging *)

(** One invocation of [send_command(command, parameters, allow_warning)]. *)
Record call : Type := Call {
  command : string;
  parameters : option param;
  allow_warning : bool
}.

(** A record handed to [logging]; the [{self}] prefix of the messages is
    left out. *)
Inductive log_record : Type :=
  | LogDebug (msg : string)
  | LogWarning (msg : string) (e : exn).

(** What the process has done so far: the state of the miner on the other
    side of the socket, every [send_command] issued together with its
    outcome, and the records that the functions of this module hand to
    [logging] (what [send_command] logs on its own is not part of it). *)
Record state (World : Type) : Type := State {
  world : World;
  history : list (call * result reply);
  log : list log_record
}.
Arguments State {World} world history log.
Arguments world {World} s.
Arguments history {World} s.
Arguments log {World} s.

(** ** Computations that touch the miner *)

Definition M (World A : Type) : Type :=
  state World -> result A * state World.

Definition ret {World A} (a : A) : M World A := fun s => (Ok a, s).

Definition bind {World A B} (m : M World A) (k : A -> M World B) : M World B :=
  fun s =>
    match m s with
    | (Ok a, s') => k a s'
    | (Raise e, s') => (Raise e, s')
    end.

(** [try: m  except <class selected by catches>: handler] *)
Definition try_except {World A} (m : M World A) (catches : exn -> bool)
    (handler : exn -> M World A) : M World A :=
  fun s =>
    match m s with
    | (Ok a, s') => (Ok a, s')
    | (Raise e, s') => if catches e then handler e s' else (Raise e, s')
    end.

Definition logging {World} (r : log_record) : M World unit :=
  fun s => (Ok tt, State (world s) (history s) (log s ++ [r])).

Declare Scope miner_scope.
Delimit Scope miner_scope with miner.
Notation "x <- m ;; k" := (bind m (fun x => k))
  (at level 100, m at next level, right associativity) : miner_scope.
Notation "m ;;; k" := (bind m (fun _ => k))
  (at level 100, right associativity) : miner_scope.
Local Open Scope miner_scope.

Module BFGMinerAPI.
Section API.

Context {World : Type}.

(** [BaseMinerAPI.send_command] as seen from this class: one
    request/response cycle, which returns the decoded reply or raises,
    and may change the miner. *)
Variable transport : call -> World -> result reply * World.

(** [BaseMinerAPI._check_commands]: the commands that pass the
    allow-list of the miner. *)
Variable _check_commands : list string -> list string.

(** [parameters] defaults to [None] and [allow_warning] to [True];
    the callers below write the defaults out. *)
Definition send_command (command : string) (parameters : option param)
    (allow_warning : bool) : M World reply :=
  fun s =>
    let c := Call command parameters allow_warning in
    let '(r, w) := transport c (world s) in
    (r, State w (history s ++ [(c, r)]) (log s)).

(** The body of the [for] loop of [_x19_multicommand], run inside its
    [try].  The local [data] is threaded through the iterations and is
    returned whether the loop ends normally ([None]) or is left by an
    exception ([Some e]): the function reads it after the handlers. *)
Fixpoint for_cmd_in (commands : list string) (data : reply)
    (s : state World) : (reply * option exn) * state World :=
  match commands with
  | [] => ((data, None), s)
  | cmd :: rest =>
      let data := <[cmd := VList []]> data in
      match send_command cmd None true s with
      | (Ok r, s') => for_cmd_in rest (alter (append (VDict r)) cmd data) s'
      | (Raise e, s') => ((data, Some e), s')
      end
  end.

Definition _x19_multicommand (commands : list string) : M World reply :=
  fun s =>
    let '((data, raised), s') := for_cmd_in commands ∅ s in
    match raised with
    | None => (Ok data, s')
    | Some (APIError _) => (Ok data, s')
    | Some (Exception msg) =>
        (logging (LogWarning "([Hidden] X19 Multicommand) - API Command Error"
                    (Exception msg)) ;;;
         ret data) s'
    | Some (BaseException msg) => (Raise (BaseException msg), s')
    end.

Definition multicommand (commands : list string) (allow_warning : bool)
    : M World reply :=
  let commands := _check_commands commands in
  let command := str_join "+" commands in
  data <- try_except (send_command command None allow_warning) is_APIError
            (fun _ =>
               logging (LogDebug "(Multicommand) - Handling X19 multicommand.") ;;;
               _x19_multicommand (str_split "+" command)) ;;
  ret (<["multicommand" := VBool true]> data).

Definition pgadisable (n : Z) : M World reply :=
  send_command "pgadisable" (Some (PInt n)) true.

Definition pgarestart (n : Z) : M World reply :=
  send_command "pgadisable" (Some (PInt n)) true.

Definition procdisable (n : Z) : M World reply :=
  send_command "procdisable" (Some (PInt n)) true.

Definition procrestart (n : Z) : M World reply :=
  send_command "procdisable" (Some (PInt n)) true.

Definition pgaset (n : Z) (opt : string) (val : option Z) : M World reply :=
  if truthy val then
    send_command "pgaset"
      (Some (PStr (str_of_int n ++ "," ++ opt ++ ","
                     ++ str_of_optional_int val))) true
  else
    send_command "pgaset" (Some (PStr (str_of_int n ++ "," ++ opt))) true.

Definition pprocset (n : Z) (opt : string) (val : option Z) : M World reply :=
  if truthy val then
    send_command "pgaset"
      (Some (PStr (str_of_int n ++ "," ++ opt ++ ","
                     ++ str_of_optional_int val))) true
  else
    send_command "pgaset" (Some (PStr (str_of_int n ++ "," ++ opt))) true.

(** *** The other command methods

    Each one makes a single [send_command] call and returns what it
    returns. *)

Definition version : M World reply := send_command "version" None true.

Definition config : M World reply := send_command "config" None true.

Definition summary : M World reply := send_command "summary" None true.

Definition pools : M World reply := send_command "pools" None true.

Definition devs : M World reply := send_command "devs" None true.

Definition procs : M World reply := send_command "procs" None true.

(** [info] defaults to [""]. *)
Definition devscan (info : string) : M World reply :=
  send_command "devscan" (Some (PStr info)) true.

Definition pga (n : Z) : M World reply :=
  send_command "pga" (Some (PInt n)) true.

(** [n] defaults to [0]. *)
Definition proc (n : Z) : M World reply :=
  send_command "proc" (Some (PInt n)) true.

Definition pgacount : M World reply := send_command "pgacount" None true.

Definition proccount : M World reply := send_command "proccount" None true.

Definition switchpool (n : Z) : M World reply :=
  send_command "switchpool" (Some (PInt n)) true.

Definition enablepool (n : Z) : M World reply :=
  send_command "enablepool" (Some (PInt n)) true.

Definition addpool (url username password : string) : M World reply :=
  send_command "addpool"
    (Some (PStr (url ++ "," ++ username ++ "," ++ password))) true.

(** [*n]: the pools, in order of priority. *)
Definition poolpriority (n : list Z) : M World reply :=
  let pools := str_join "," (List.map str_of_int n) in
  send_command "poolpriority" (Some (PStr pools)) true.

Definition poolquota (n q : Z) : M World reply :=
  send_command "poolquota" (Some (PStr (str_of_int n ++ "," ++ str_of_int q))) true.

Definition disablepool (n : Z) : M World reply :=
  send_command "disablepool" (Some (PInt n)) true.

Definition removepool (n : Z) : M World reply :=
  send_command "removepool" (Some (PInt n)) true.

(** [filename] defaults to [None]. *)
Definition save (filename : option string) : M World reply :=
  if truthy_str filename then
    send_command "save" (Some (PStr (default "" filename))) true
  else
    send_command "save" None true.

Definition quit : M World reply := send_command "quit" None true.

Definition notify : M World reply := send_command "notify" None true.

Definition privileged : M World reply := send_command "privileged" None true.

Definition pgaenable (n : Z) : M World reply :=
  send_command "pgaenable" (Some (PInt n)) true.

Definition pgaidentify (n : Z) : M World reply :=
  send_command "pgaidentify" (Some (PInt n)) true.

Definition procenable (n : Z) : M World reply :=
  send_command "procenable" (Some (PInt n)) true.

Definition procidentify (n : Z) : M World reply :=
  send_command "procidentify" (Some (PInt n)) true.

Definition devdetails : M World reply := send_command "devdetails" None true.

Definition restart : M World reply := send_command "restart" None true.

Definition stats : M World reply := send_command "stats" None true.

Definition check (command : string) : M World reply :=
  send_command "check" (Some (PStr command)) true.

Definition failover_only (failover : bool) : M World reply :=
  send_command "failover-only" (Some (PBool failover)) true.

Definition coin : M World reply := send_command "coin" None true.

Definition debug (setting : string) : M World reply :=
  send_command "debug" (Some (PStr setting)) true.

Definition setconfig (name : string) (n : Z) : M World reply :=
  send_command "setconfig" (Some (PStr (name ++ "," ++ str_of_int n))) true.

Definition zero (which : string) (summary : bool) : M World reply :=
  send_command "zero" (Some (PStr (which ++ "," ++ str_of_bool summary))) true.

End API.
End BFGMinerAPI.

(** ** The wire codec *)

(** [str(p)] for a parameter. *)
Definition str_of_param (p : param) : string :=
  match p with
  | PInt z => str_of_int z
  | PBool true => "True"
  | PBool false => "False"
  | PStr s => s
  end.

(** Modelled from the spec: the encoder of the wire codec, which belongs to
    [BaseMinerAPI.send_command] and is not part of this module.  A command
    that carries parameters is followed by the parameter separator [","]
    and the stringified parameters. *)
Definition encode (c : call) : string :=
  match parameters c with
  | None => command c
  | Some p => command c ++ "," ++ str_of_param p
  end.

(** ** Vocabulary of the statements *)

Local Open Scope list_scope.

(** The calls issued so far, oldest first. *)
Definition calls {World} (s : state World) : list call := (history s).*1.

(** The request the sequential strategy makes for one command. *)
Definition single (cmd : string) : call := Call cmd None true.

(** A call that came back with a reply. *)
Definition answered (cr : string * reply) : call * result reply :=
  (single cr.1, Ok cr.2).

(** The entries left in [data] by commands that were answered, in the
    order of the calls: a later answer for the same command replaces the
    earlier one. *)
Definition collected (data : reply) (done : list (string * reply)) : reply :=
  foldl (fun d cr => <[cr.1 := VList [VDict cr.2]]> d) data done.

(** The batched request was turned down with an [APIError]. *)
Definition rejected {A} (r : result A) : bool :=
  match r with
  | Raise (APIError _) => true
  | _ => false
  end.

(** The request of the batched strategy. *)
Definition batch (_check_commands : list string -> list string)
    (commands : list string) (allow_warning : bool) : call :=
  Call (str_join "+" (_check_commands commands)) None allow_warning.

(** What a call of the sequential strategy leaves under its command: the
    one-element list of the reply, or the empty list when it raised. *)
Definition outcome_entry (o : result reply) : value :=
  match o with
  | Ok r => VList [VDict r]
  | Raise _ => VList []
  end.

Definition record_call (data : reply) (x : call * result reply) : reply :=
  <[command x.1 := outcome_entry x.2]> data.

(** The warning of [_x19_multicommand] for what the last call raised. *)
Definition warning_for (last_call : option (call * result reply)) : list log_record :=
  match last_call with
  | Some (_, Raise (Exception msg)) =>
      [LogWarning "([Hidden] X19 Multicommand) - API Command Error" (Exception msg)]
  | _ => []
  end.

(** ** Mock miners *)

Module Mock.

Definition status (code : string) : value :=
  VList [VDict {[ "STATUS" := VStr code ]}].

(** The reply of a miner to one supported command: a status section and
    a section named after the command, in capitals. *)
Definition section (name : string) : reply :=
  {[ "STATUS" := status "S"; name := VList [VDict ∅] ]}.

(** A miner of the firmware family that rejects the batched form.  It
    counts the request/response cycles it serves; [pools] is not
    available on it. *)
Definition x19 (c : call) (cycles : nat) : result reply * nat :=
  (if String.eqb (command c) "summary" then Ok (section "SUMMARY")
   else if String.eqb (command c) "version" then Ok (section "VERSION")
   else if String.eqb (command c) "pgaset" then Ok {[ "STATUS" := status "S" ]}
   else Raise (APIError "invalid command"),
   S cycles).

(** A miner that answers the batched form: one section per command
    name, each holding the reply to that command. *)
Definition batching (c : call) (cycles : nat) : result reply * nat :=
  (if String.eqb (command c) "version+pools+summary" then
     Ok {[ "version" := VList [VDict (section "VERSION")];
           "pools" := VList [VDict (section "POOLS")];
           "summary" := VList [VDict (section "SUMMARY")] ]}
   else if String.eqb (command c) "version" then Ok (section "VERSION")
   else if String.eqb (command c) "pools" then Ok (section "POOLS")
   else if String.eqb (command c) "summary" then Ok (section "SUMMARY")
   else Raise (APIError "invalid command"),
   S cycles).

(** The miner of [x19], with the task that runs the call cancelled while
    request number [n] is awaited: that [await] raises
    [asyncio.CancelledError], which is a [BaseException] and no
    [Exception]. *)
Definition cancelled_at (n : nat) (c : call) (cycles : nat)
    : result reply * nat :=
  if Nat.eqb cycles n
  then (Raise (BaseException "CancelledError"), S cycles)
  else x19 c cycles.

(** Every command is on the allow-list. *)
Definition allow_all (commands : list string) : list string := commands.

(** No command is on the allow-list. *)
Definition allow_none (commands : list string) : list string := [].

(** A miner that answers every request with the number of cycles it had
    served before. *)
Definition counting (c : call) (cycles : nat) : result reply * nat :=
  (Ok {[ "Elapsed" := VInt (Z.of_nat cycles) ]}, S cycles).


Definition start : state nat := State 0%nat [] [].

End Mock.

Import BFGMinerAPI.

(** * Properties *)

(** ** Splitting a joined command line *)

Section Strings.

Variable sep : ascii.

Lemma str_split_not_nil s : str_split sep s <> [].
Proof.
  destruct s as [|c s]; simpl; [discriminate|].
  destruct (Ascii.eqb c sep); [discriminate|].
  destruct (str_split sep s); discriminate.
Qed.

Lemma str_split_free s :
  str_contains sep s = false -> str_split sep s = [s].
Proof.
  induction s as [|c s IH]; simpl; [reflexivity|].
  destruct (Ascii.eqb c sep); simpl; [discriminate|].
  intros H. rewrite (IH H). reflexivity.
Qed.

Lemma str_split_cut w s :
  str_contains sep w = false ->
  str_split sep (w ++ String sep s) = w :: str_split sep s.
Proof.
  induction w as [|c w IH]; simpl.
  - intros _. rewrite Ascii.eqb_refl. reflexivity.
  - destruct (Ascii.eqb c sep); simpl; [discriminate|].
    intros H. rewrite (IH H). reflexivity.
Qed.

(** Splitting undoes joining for a non-empty list of commands none of
    which holds the separator. *)
Lemma str_split_join (l : list string) :
  l <> [] ->
  Forall (fun w => str_contains sep w = false) l ->
  str_split sep (str_join (String sep EmptyString) l) = l.
Proof.
  intros Hne Hall. induction Hall as [|w l Hw Hall IH]; [congruence|].
  destruct l as [|w' l].
  - simpl. apply str_split_free, Hw.
  - change (str_join (String sep EmptyString) (w :: w' :: l))
      with (w ++ String sep (str_join (String sep EmptyString) (w' :: l)))%string.
    rewrite (str_split_cut _ _ Hw), IH; [reflexivity|discriminate].
Qed.

End Strings.

Example split_empty : str_split "+" "" = [""].
Proof. reflexivity. Qed.

Example split_pools_summary : str_split "+" "pools+summary" = ["pools"; "summary"].
Proof. reflexivity. Qed.

Example format_int : str_of_int 50 = "50" /\ str_of_int (-3) = "-3" /\ str_of_int 0 = "0".
Proof. vm_compute. repeat split. Qed.

Lemma collected_snoc data done cr :
  collected data (done ++ [cr]) = <[cr.1 := VList [VDict cr.2]]> (collected data done).
Proof. unfold collected. rewrite foldl_app. reflexivity. Qed.

(** A command that was never answered has the entry it had before. *)
Lemma collected_lookup_other (data : reply) done (cmd : string) :
  cmd ∉ done.*1 -> collected data done !! cmd = data !! cmd.
Proof.
  induction done as [|cr done IH] using rev_ind; [reflexivity|].
  rewrite fmap_app, collected_snoc. simpl. intros Hnot.
  rewrite lookup_insert_ne by set_solver. apply IH. set_solver.
Qed.

(** A command that was answered holds the one-element list of one of its
    replies. *)
Lemma collected_lookup_answered (data : reply) done (cmd : string) :
  cmd ∈ done.*1 ->
  exists r, (cmd, r) ∈ done /\ collected data done !! cmd = Some (VList [VDict r]).
Proof.
  induction done as [|[c r] done IH] using rev_ind; [set_solver|].
  rewrite fmap_app, collected_snoc. simpl. intros Hin.
  destruct (decide (c = cmd)) as [->|Hne].
  - exists r. rewrite lookup_insert_eq. set_solver.
  - rewrite lookup_insert_ne by done.
    destruct IH as (r' & Hr' & Hl); [set_solver|].
    exists r'. set_solver.
Qed.

Section Fallback.

Context {World : Type}.
Variable transport : call -> World -> result reply * World.

(** The loop: it goes through the commands in order, keeps the reply of
    each answered call, and is left at the first call that raises, with
    an empty list under that command. *)
Lemma for_cmd_in_spec commands data (s : state World) :
  exists done : list (string * reply),
    let '((data', raised), s') := for_cmd_in transport commands data s in
    log s' = log s /\
    match raised with
    | None =>
        commands = done.*1 /\
        history s' = history s ++ (answered <$> done) /\
        data' = collected data done
    | Some e =>
        exists cmd rest,
          commands = done.*1 ++ cmd :: rest /\
          history s' = history s ++ (answered <$> done) ++ [(single cmd, Raise e)] /\
          data' = <[cmd := VList []]> (collected data done)
    end.
Proof.
  revert data s. induction commands as [|cmd rest IH]; intros data s.
  - exists []. simpl. rewrite app_nil_r. done.
  - simpl. unfold send_command.
    destruct (transport (Call cmd None true) (world s)) as [[r|e] w] eqn:Ht.
    + rewrite alter_insert_eq. simpl.
      match goal with |- context [for_cmd_in _ _ ?d ?t] =>
        destruct (IH d t) as [done Hd];
        destruct (for_cmd_in transport rest d t) as [[data' raised] s'] end.
      exists ((cmd, r) :: done). destruct Hd as [Hlog Hd]. split; [done|].
      simpl in *. destruct raised as [e|].
      * destruct Hd as (c & rest' & -> & Hh & ->).
        exists c, rest'. rewrite Hh, <- app_assoc. done.
      * destruct Hd as (-> & Hh & ->). rewrite Hh, <- app_assoc. done.
    + exists []. simpl. split; [done|]. exists cmd, rest. done.
Qed.

(** The sequential strategy as a whole: either every command was
    answered, or the calls stop at the first one that raises; what was
    raised is swallowed when it is an [Exception]. *)
Lemma x19_multicommand_spec commands (s : state World) :
  exists done : list (string * reply),
    let '(r, s') := _x19_multicommand transport commands s in
    (commands = done.*1 /\
     history s' = history s ++ (answered <$> done) /\
     r = Ok (collected ∅ done))
    \/
    (exists cmd rest e,
       commands = done.*1 ++ cmd :: rest /\
       history s' = history s ++ (answered <$> done) ++ [(single cmd, Raise e)] /\
       r = if is_Exception e
           then Ok (<[cmd := VList []]> (collected ∅ done))
           else Raise e).
Proof.
  destruct (for_cmd_in_spec commands ∅ s) as [done H]. exists done.
  unfold _x19_multicommand.
  destruct (for_cmd_in transport commands ∅ s) as [[data raised] s'].
  destruct H as [_ H]. destruct raised as [e|];
    [|left; destruct H as (? & ? & ->); done].
  destruct H as (cmd & rest & ? & ? & ->).
  destruct e as [msg|msg|msg]; simpl; right;
    [exists cmd, rest, (APIError msg)
    |exists cmd, rest, (Exception msg)
    |exists cmd, rest, (BaseException msg)]; done.
Qed.

Variable _check_commands : list string -> list string.

Abbreviation batch' := (batch _check_commands).

(** The batched request is answered: its reply is marked and returned. *)
Lemma multicommand_answered commands aw (s : state World) d w :
  transport (batch' commands aw) (world s) = (Ok d, w) ->
  multicommand transport _check_commands commands aw s
  = (Ok (<["multicommand" := VBool true]> d),
     State w (history s ++ [(batch' commands aw, Ok d)]) (log s)).
Proof.
  intros Ht. unfold multicommand, bind, try_except, send_command.
  fold (batch' commands aw). rewrite Ht. reflexivity.
Qed.

(** The batched request raises something else than [APIError]: it goes
    through to the caller. *)
Lemma multicommand_propagates commands aw (s : state World) e w :
  transport (batch' commands aw) (world s) = (Raise e, w) ->
  is_APIError e = false ->
  multicommand transport _check_commands commands aw s
  = (Raise e, State w (history s ++ [(batch' commands aw, Raise e)]) (log s)).
Proof.
  intros Ht He. unfold multicommand, bind, try_except, send_command.
  fold (batch' commands aw). rewrite Ht, He. reflexivity.
Qed.

(** The batched request raises [APIError]: the sequential strategy runs
    on the pieces of the joined line, and its reply is marked. *)
Lemma multicommand_rejected commands aw (s : state World) msg w :
  transport (batch' commands aw) (world s) = (Raise (APIError msg), w) ->
  multicommand transport _check_commands commands aw s
  = let '(r, s') :=
      _x19_multicommand transport
        (str_split "+" (str_join "+" (_check_commands commands)))
        (State w (history s ++ [(batch' commands aw, Raise (APIError msg))])
           (log s ++ [LogDebug "(Multicommand) - Handling X19 multicommand."])) in
    (match r with
     | Ok data => Ok (<["multicommand" := VBool true]> data)
     | Raise e => Raise e
     end, s').
Proof.
  intros Ht. unfold multicommand, bind, try_except, send_command, logging.
  fold (batch' commands aw). rewrite Ht. simpl.
  destruct (_x19_multicommand _ _ _) as [[data|e] s']; reflexivity.
Qed.

End Fallback.

Lemma answered_calls (done : list (string * reply)) :
  (answered <$> done).*1 = single <$> done.*1.
Proof. rewrite <- !list_fmap_compose. reflexivity. Qed.

Lemma answered_allow_warning (done : list (string * reply)) :
  Forall (fun cr : call * result reply => allow_warning cr.1 = true) (answered <$> done).
Proof. induction done; simpl; constructor; auto. Qed.

Section Orchestrator.

Context {World : Type}.
Variable transport : call -> World -> result reply * World.
Variable _check_commands : list string -> list string.

Abbreviation x19 := (_x19_multicommand transport).
Abbreviation multi := (multicommand transport _check_commands).
Abbreviation batched := (batch _check_commands).

(** What the sequential strategy adds to the history. *)
Lemma x19_multicommand_calls commands (s : state World) :
  exists h : list (call * result reply),
    history (x19 commands s).2 = history s ++ h /\
    h.*1 `prefix_of` (single <$> commands) /\
    Forall (fun cr => allow_warning cr.1 = true) h /\
    (commands <> [] -> h <> []) /\
    (Forall (fun cr => is_Ok cr.2 = true) h -> h.*1 = single <$> commands).
Proof.
  destruct (x19_multicommand_spec transport commands s) as [done H].
  destruct (x19 commands s) as [r s']. simpl.
  destruct H as [(-> & -> & _)|(cmd & rest & e & -> & -> & _)].
  - exists (answered <$> done). rewrite answered_calls.
    repeat split; auto using answered_allow_warning.
    destruct done; simpl; congruence.
  - exists ((answered <$> done) ++ [(single cmd, Raise e)]).
    rewrite !fmap_app, answered_calls. simpl. repeat split.
    + apply prefix_app, prefix_cons, prefix_nil.
    + apply Forall_app. split; [apply answered_allow_warning|].
      repeat constructor.
    + intros _ Habs. destruct (answered <$> done); discriminate.
    + intros Hok. apply Forall_app in Hok as [_ Hok].
      inversion Hok; subst. discriminate.
Qed.

(** A run of [multicommand] starts with the batched request; what
    follows it in the history is what the sequential strategy added. *)
Lemma multicommand_history commands aw (s : state World) :
  let r0 := (transport (batched commands aw) (world s)).1 in
  exists h : list (call * result reply),
    history (multi commands aw s).2
    = history s ++ (batched commands aw, r0) :: h /\
    (rejected r0 = false -> h = []) /\
    (rejected r0 = true ->
       exists s1,
         history s1 = history s ++ [(batched commands aw, r0)] /\
         history (x19 (str_split "+" (str_join "+" (_check_commands commands))) s1).2
         = history s1 ++ h).
Proof.
  simpl.
  destruct (transport (batched commands aw) (world s)) as [[d|e] w] eqn:Ht.
  - rewrite (multicommand_answered _ _ _ _ _ _ _ Ht). simpl.
    exists []. split; [done|]. split; [done|discriminate].
  - destruct (is_APIError e) eqn:He.
    + destruct e as [msg| |]; try discriminate.
      rewrite (multicommand_rejected _ _ _ _ _ _ _ Ht). simpl.
      match goal with |- context [x19 ?c ?t] =>
        destruct (x19_multicommand_calls c t) as (h & Hh & _);
        exists h; split; [|split; [discriminate|intros _; exists t; done]];
        destruct (x19 c t) as [r s'] end.
      simpl in *. rewrite Hh, <- app_assoc. reflexivity.
    + rewrite (multicommand_propagates _ _ _ _ _ _ _ Ht He). simpl.
      exists []. split; [done|]. split; [done|].
      destruct e; simpl in *; discriminate.
Qed.

(** C2: [multicommand] joins the validated commands with ["+"] and
    makes one [send_command] call with the joined line, passing the
    caller's [allow_warning].  When that call does not raise [APIError]
    no further call is made.  When it does, the sequential strategy
    follows: one call per piece of the joined line, in order, for as
    long as the calls are answered; and for a non-empty list of
    validated commands that hold no ["+"], the pieces are the validated
    commands. *)
Theorem multicommand_two_strategies commands aw (s : state World) :
  let validated := _check_commands commands in
  let line := str_join "+" validated in
  let r0 := (transport (Call line None aw) (world s)).1 in
  exists h : list (call * result reply),
    history (multi commands aw s).2
    = history s ++ (Call line None aw, r0) :: h /\
    (rejected r0 = false -> h = []) /\
    (rejected r0 = true ->
       h <> [] /\
       h.*1 `prefix_of` (single <$> str_split "+" line) /\
       (Forall (fun cr => is_Ok cr.2 = true) h ->
        h.*1 = single <$> str_split "+" line)) /\
    (validated <> [] ->
     Forall (fun c => str_contains "+" c = false) validated ->
     str_split "+" line = validated).
Proof.
  simpl.
  destruct (multicommand_history commands aw s) as (h & Hh & Hno & Hyes).
  exists h. split; [exact Hh|]. split; [exact Hno|]. split.
  - intros Hr. destruct (Hyes Hr) as (s1 & _ & Hx).
    match type of Hx with context [x19 ?c s1] =>
      destruct (x19_multicommand_calls c s1) as (h' & Hh' & Hpre & _ & Hne & Hall) end.
    rewrite Hx in Hh'. apply app_inv_head in Hh'. subst h'.
    split; [apply Hne, str_split_not_nil|]. split; assumption.
  - apply str_split_join.
Qed.

(** Whatever [multicommand] returns carries the marker. *)
Lemma multicommand_returns_marked commands aw (s : state World) d s' :
  multi commands aw s = (Ok d, s') ->
  exists data : reply, d = <["multicommand" := VBool true]> data.
Proof.
  destruct (transport (batched commands aw) (world s)) as [[d0|e] w] eqn:Ht.
  - rewrite (multicommand_answered _ _ _ _ _ _ _ Ht).
    intros [= <- _]. eauto.
  - destruct (is_APIError e) eqn:He.
    + destruct e as [msg| |]; try discriminate.
      rewrite (multicommand_rejected _ _ _ _ _ _ _ Ht).
      destruct (x19 _ _) as [[data|e] s'']; intros [= <- _]. eauto.
    + rewrite (multicommand_propagates _ _ _ _ _ _ _ Ht He). discriminate.
Qed.

(** C4: the reply returned by [multicommand], by either strategy, maps
    ["multicommand"] to [True]. *)
Theorem multicommand_marks_reply commands aw (s : state World) d s' :
  multi commands aw s = (Ok d, s') ->
  d !! "multicommand" = Some (VBool true).
Proof.
  intros H. destruct (multicommand_returns_marked _ _ _ _ _ H) as [data ->].
  apply lookup_insert_eq.
Qed.

(** C5: the sequential strategy issues each command through
    [send_command(cmd, allow_warning=True)]: its calls are exactly those
    calls, for the commands in order, at least one when there is a
    command, and all of them as long as each is answered.  This holds of
    [_x19_multicommand] run on its own, and of the calls that
    [multicommand] makes after a batched request that raised [APIError],
    whatever [allow_warning] the caller gave; no call follows a batched
    request that did not. *)
Theorem fallback_allows_warnings commands aw (s : state World) :
  let issue (cmd : string) := Call cmd None true in
  (exists h : list (call * result reply),
     history (x19 commands s).2 = history s ++ h /\
     h.*1 `prefix_of` (issue <$> commands) /\
     (commands <> [] -> h <> []) /\
     (Forall (fun cr => is_Ok cr.2 = true) h -> h.*1 = issue <$> commands) /\
     Forall (fun cr => allow_warning cr.1 = true) h) /\
  (exists r0 (h : list (call * result reply)),
     let pieces := str_split "+" (str_join "+" (_check_commands commands)) in
     history (multi commands aw s).2
     = history s ++ (Call (str_join "+" (_check_commands commands)) None aw, r0) :: h /\
     (rejected r0 = false -> h = []) /\
     (rejected r0 = true ->
      h <> [] /\
      h.*1 `prefix_of` (issue <$> pieces) /\
      (Forall (fun cr => is_Ok cr.2 = true) h -> h.*1 = issue <$> pieces)) /\
     Forall (fun cr => allow_warning cr.1 = true) h).
Proof.
  simpl. split.
  - destruct (x19_multicommand_calls commands s)
      as (h & Hh & Hpre & Hall & Hne & Hfull).
    exists h. auto.
  - destruct (multicommand_history commands aw s) as (h & Hh & Hno & Hyes).
    eexists _, h. split; [exact Hh|]. split; [exact Hno|].
    destruct (rejected (transport (batched commands aw) (world s)).1) eqn:Hr.
    + destruct (Hyes eq_refl) as (s1 & _ & Hx).
      match type of Hx with context [x19 ?c s1] =>
        destruct (x19_multicommand_calls c s1)
          as (h' & Hh' & Hpre & Hall & Hne & Hfull) end.
      rewrite Hx in Hh'. apply app_inv_head in Hh'. subst h'.
      split; [|exact Hall]. intros _.
      split; [apply Hne, str_split_not_nil|]. split; [exact Hpre|exact Hfull].
    + rewrite (Hno eq_refl). split; [discriminate|constructor].
Qed.

(** A run of [multicommand] whose batched request raised [APIError]:
    the commands are issued one by one up to the first one that
    raises. *)
Lemma multicommand_fallback_run commands aw (s : state World) msg w :
  transport (batched commands aw) (world s) = (Raise (APIError msg), w) ->
  let pieces := str_split "+" (str_join "+" (_check_commands commands)) in
  let turned_down := (batched commands aw, Raise (APIError msg)) in
  exists done : list (string * reply),
    (pieces = done.*1 /\
     history (multi commands aw s).2
     = history s ++ turned_down :: (answered <$> done) /\
     (multi commands aw s).1
     = Ok (<["multicommand" := VBool true]> (collected ∅ done)))
    \/
    (exists cmd rest e,
       pieces = done.*1 ++ cmd :: rest /\
       history (multi commands aw s).2
       = history s ++ turned_down :: (answered <$> done) ++ [(single cmd, Raise e)] /\
       (multi commands aw s).1
       = if is_Exception e
         then Ok (<["multicommand" := VBool true]>
                    (<[cmd := VList []]> (collected ∅ done)))
         else Raise e).
Proof.
  intros Ht. simpl. rewrite (multicommand_rejected _ _ _ _ _ _ _ Ht).
  match goal with |- context [x19 ?c ?t] =>
    destruct (x19_multicommand_spec transport c t) as [done H];
    destruct (x19 c t) as [r s'] end.
  exists done. simpl in *.
  destruct H as [(Hc & Hh & ->)|(cmd & rest & e & Hc & Hh & ->)].
  - left. rewrite Hh, <- app_assoc. done.
  - right. exists cmd, rest, e. rewrite Hh, <- app_assoc.
    destruct (is_Exception e); done.
Qed.

(** What the code does where C1 fails: once the batched request has
    raised [APIError], the commands are issued one by one, in order, up to
    the first one whose [send_command] raises.  Either all of them are
    answered, and each holds the one-element list of a reply it got; or
    the calls stop at the first command that raises: the commands after
    it are not issued, and when what was raised is an [Exception] the
    reply is returned with an empty list under that command, the
    one-element lists of the commands answered before it, and nothing
    for a command that was not reached. *)
Theorem multicommand_fallback_stops_at_first_failure
    commands aw (s : state World) msg w :
  transport (batched commands aw) (world s) = (Raise (APIError msg), w) ->
  let pieces := str_split "+" (str_join "+" (_check_commands commands)) in
  let turned_down := (batched commands aw, Raise (APIError msg)) in
  let entry (done : list (string * reply)) (d : reply) (c : string) :=
    exists r, (c, r) ∈ done /\ d !! c = Some (VList [VDict r]) in
  exists done : list (string * reply),
    (pieces = done.*1 /\
     history (multi commands aw s).2
     = history s ++ turned_down :: (answered <$> done) /\
     exists d, (multi commands aw s).1 = Ok d /\
       forall c, c ∈ pieces -> c <> "multicommand" -> entry done d c)
    \/
    (exists cmd rest e,
       pieces = done.*1 ++ cmd :: rest /\
       history (multi commands aw s).2
       = history s ++ turned_down :: (answered <$> done) ++ [(single cmd, Raise e)] /\
       (is_Exception e = false -> (multi commands aw s).1 = Raise e) /\
       (is_Exception e = true ->
        exists d, (multi commands aw s).1 = Ok d /\
          (cmd <> "multicommand" -> d !! cmd = Some (VList [])) /\
          forall c, c <> cmd -> c <> "multicommand" ->
            (c ∈ done.*1 -> entry done d c) /\
            (c ∉ done.*1 -> d !! c = None))).
Proof.
  intros Ht. simpl.
  destruct (multicommand_fallback_run commands aw s msg w Ht) as [done H].
  exists done. simpl in H.
  destruct H as [(Hc & Hh & Hr)|(cmd & rest & e & Hc & Hh & Hr)].
  - left. split; [exact Hc|]. split; [exact Hh|].
    eexists. split; [exact Hr|]. intros c Hin Hne.
    rewrite lookup_insert_ne by done.
    apply collected_lookup_answered. rewrite <- Hc. exact Hin.
  - right. exists cmd, rest, e. split; [exact Hc|]. split; [exact Hh|].
    destruct (is_Exception e); (split; [intros; done|]); [|discriminate].
    intros _. eexists. split; [exact Hr|]. split.
    + intros Hne. rewrite lookup_insert_ne by done. apply lookup_insert_eq.
    + intros c Hc1 Hc2. rewrite !lookup_insert_ne by done. split.
      * apply collected_lookup_answered.
      * intros Hnot. rewrite collected_lookup_other by done.
        apply lookup_empty.
Qed.


(** C6, as the code has it: when the batched request is answered, the
    reply of [multicommand] is the reply to that one request with the
    marker added; its keys are the keys of that reply and
    ["multicommand"], and no individual [send_command] call is made. *)
Theorem multicommand_batched_keys commands aw (s : state World) d w :
  transport (batched commands aw) (world s) = (Ok d, w) ->
  exists d' : reply,
    (multi commands aw s).1 = Ok d' /\
    d' = <["multicommand" := VBool true]> d /\
    dom d' = dom d ∪ {["multicommand"]} /\
    history (multi commands aw s).2 = history s ++ [(batched commands aw, Ok d)].
Proof.
  intros Ht. rewrite (multicommand_answered _ _ _ _ _ _ _ Ht). simpl.
  eexists. split; [reflexivity|]. split; [reflexivity|]. split; [|reflexivity].
  rewrite dom_insert_L. set_solver.
Qed.

End Orchestrator.

(** ** The command methods *)

Section Methods.

Context {World : Type}.
Variable transport : call -> World -> result reply * World.

(** A call of [send_command] adds exactly that call to those issued. *)
Lemma send_command_calls cmd p aw (s : state World) :
  calls (send_command transport cmd p aw s).2 = calls s ++ [Call cmd p aw].
Proof.
  unfold send_command, calls.
  destruct (transport (Call cmd p aw) (world s)) as [r w]. simpl.
  rewrite fmap_app. reflexivity.
Qed.

(** C8: [pgarestart(n)] sends the command ["pgadisable"] with the
    parameter [n], as [pgadisable(n)] does, and [procrestart(n)] sends
    ["procdisable"], as [procdisable(n)] does. *)
Theorem restart_dispatches_disable n (s : state World) :
  (calls (pgarestart transport n s).2
   = calls s ++ [Call "pgadisable" (Some (PInt n)) true] /\
   pgarestart transport n s = pgadisable transport n s) /\
  (calls (procrestart transport n s).2
   = calls s ++ [Call "procdisable" (Some (PInt n)) true] /\
   procrestart transport n s = procdisable transport n s).
Proof.
  unfold pgarestart, procrestart, pgadisable, procdisable.
  rewrite !send_command_calls. repeat split.
Qed.

(** C9: whatever [n], [opt] and [val], [pprocset] makes one call, whose
    command name is ["pgaset"]; it does what [pgaset] does. *)
Theorem pprocset_dispatches_pgaset n opt val (s : state World) :
  (exists p, calls (pprocset transport n opt val s).2
             = calls s ++ [Call "pgaset" (Some (PStr p)) true]) /\
  pprocset transport n opt val s = pgaset transport n opt val s.
Proof.
  split; [|reflexivity]. unfold pprocset.
  destruct (truthy val); rewrite send_command_calls; eauto.
Qed.

(** C10: with [val = 0] the value is left out: [pgaset] and [pprocset]
    send the parameter string ["n,opt"], and behave as when [val] is not
    given. *)
Theorem set_drops_zero_value n opt (s : state World) :
  (calls (pgaset transport n opt (Some 0) s).2
   = calls s ++ [Call "pgaset" (Some (PStr (str_of_int n +:+ "," +:+ opt))) true] /\
   pgaset transport n opt (Some 0) s = pgaset transport n opt None s) /\
  (calls (pprocset transport n opt (Some 0) s).2
   = calls s ++ [Call "pgaset" (Some (PStr (str_of_int n +:+ "," +:+ opt))) true] /\
   pprocset transport n opt (Some 0) s = pprocset transport n opt None s).
Proof.
  unfold pgaset, pprocset. simpl. rewrite !send_command_calls. repeat split.
Qed.

(** C7: [pgaset(0, "clock", 50)] sends the command ["pgaset"] with the
    parameter string ["0,clock,50"], which the wire codec of the spec
    encodes as ["pgaset,0,clock,50"]; in general, for a value that is not
    zero, the parameter string is [n], [opt] and [val] joined by commas. *)
Theorem pgaset_wire_string :
  (forall s : state World,
     calls (pgaset transport 0 "clock" (Some 50) s).2
     = calls s ++ [Call "pgaset" (Some (PStr "0,clock,50")) true]) /\
  encode (Call "pgaset" (Some (PStr "0,clock,50")) true) = "pgaset,0,clock,50" /\
  (forall n opt v (s : state World), v <> 0 ->
     calls (pgaset transport n opt (Some v) s).2
     = calls s ++ [Call "pgaset"
                     (Some (PStr (str_join "," [str_of_int n; opt; str_of_int v])))
                     true]).
Proof.
  split; [|split].
  - intros s. unfold pgaset. simpl. rewrite send_command_calls. reflexivity.
  - reflexivity.
  - intros n opt v s Hv. unfold pgaset, truthy.
    destruct (Z.eqb_spec v 0) as [|_]; [contradiction|]. simpl.
    rewrite send_command_calls. reflexivity.
Qed.

End Methods.

(** ** Runs against the mock miners *)

Example x19_run :
  multicommand Mock.x19 Mock.allow_all ["summary"; "pools"; "version"] false Mock.start
  = (Ok {[ "summary" := VList [VDict (Mock.section "SUMMARY")];
           "pools" := VList [];
           "multicommand" := VBool true ]},
     State 3%nat
       [(Call "summary+pools+version" None false, Raise (APIError "invalid command"));
        (single "summary", Ok (Mock.section "SUMMARY"));
        (single "pools", Raise (APIError "invalid command"))]
       [LogDebug "(Multicommand) - Handling X19 multicommand."]).
Proof. vm_compute. reflexivity. Qed.

(** The batched request for [summary], [pools] and [version] is turned
    down by the mock, and the theorem above applies to the run. *)
Lemma multicommand_fallback_stops_at_first_failure_witness :
  let commands := ["summary"; "pools"; "version"] in
  let multi := multicommand Mock.x19 Mock.allow_all commands true Mock.start in
  let turned_down :=
    (batch Mock.allow_all commands true, Raise (APIError "invalid command")) in
  let entry (done : list (string * reply)) (d : reply) (c : string) :=
    exists r, (c, r) ∈ done /\ d !! c = Some (VList [VDict r]) in
  Mock.x19 (batch Mock.allow_all commands true) (world Mock.start)
  = (Raise (APIError "invalid command"), 1%nat) /\
  exists done : list (string * reply),
    (commands = done.*1 /\
     history multi.2 = history Mock.start ++ turned_down :: (answered <$> done) /\
     exists d, multi.1 = Ok d /\
       forall c, c ∈ commands -> c <> "multicommand" -> entry done d c)
    \/
    (exists cmd rest e,
       commands = done.*1 ++ cmd :: rest /\
       history multi.2
       = history Mock.start ++ turned_down :: (answered <$> done) ++ [(single cmd, Raise e)] /\
       (is_Exception e = false -> multi.1 = Raise e) /\
       (is_Exception e = true ->
        exists d, multi.1 = Ok d /\
          (cmd <> "multicommand" -> d !! cmd = Some (VList [])) /\
          forall c, c <> cmd -> c <> "multicommand" ->
            (c ∈ done.*1 -> entry done d c) /\
            (c ∉ done.*1 -> d !! c = None))).
Proof.
  split; [reflexivity|].
  exact (multicommand_fallback_stops_at_first_failure Mock.x19 Mock.allow_all
           ["summary"; "pools"; "version"] true Mock.start
           "invalid command" 1%nat eq_refl).
Defined.

(** C1: the code breaks it, and its own comment [# send all commands
    individually].  The miner turns the batched request down, then
    answers [summary] and raises [APIError] on [pools].  [version] would
    be answered on its own, yet it is not issued and has no entry; and
    [pools], which fails, is not left out: it holds an empty list. *)
Lemma multicommand_fallback_counterexample :
  exists (d : reply) (s' : state nat),
    (Mock.x19 (batch Mock.allow_all ["summary"; "pools"; "version"] true) 0%nat).1
    = Raise (APIError "invalid command") /\
    multicommand Mock.x19 Mock.allow_all ["summary"; "pools"; "version"] true Mock.start
    = (Ok d, s') /\
    (forall s, (send_command Mock.x19 "version" None true s).1
               = Ok (Mock.section "VERSION")) /\
    (forall s, (send_command Mock.x19 "pools" None true s).1
               = Raise (APIError "invalid command")) /\
    d !! "version" = None /\
    (single "version" ∉ calls s') /\
    d !! "pools" = Some (VList []).
Proof.
  eexists _, _. split; [reflexivity|].
  split; [vm_compute; reflexivity|].
  split; [intros s; reflexivity|]. split; [intros s; reflexivity|].
  split; [vm_compute; reflexivity|]. split; [|vm_compute; reflexivity].
  intros Hin. vm_compute in Hin.
  repeat (apply elem_of_cons in Hin as [Hin|Hin]; [discriminate Hin|]).
  inversion Hin.
Qed.

(** The run of the mock that is turned down returns, and the theorem of
    C4 applies to what it returns. *)
Lemma multicommand_marks_reply_witness :
  exists (d : reply) (s' : state nat),
    multicommand Mock.x19 Mock.allow_all ["summary"; "pools"; "version"] false Mock.start
    = (Ok d, s') /\
    d !! "multicommand" = Some (VBool true).
Proof.
  eexists _, _. split; [exact x19_run|].
  exact (multicommand_marks_reply Mock.x19 Mock.allow_all
           ["summary"; "pools"; "version"] false Mock.start _ _ x19_run).
Defined.


(** The mock that answers the batched form, and the theorem of C6 applied
    to its run. *)
Lemma multicommand_batched_keys_witness :
  let commands := ["version"; "pools"; "summary"] in
  let multi := multicommand Mock.batching Mock.allow_all commands true Mock.start in
  let d : reply :=
    {[ "version" := VList [VDict (Mock.section "VERSION")];
       "pools" := VList [VDict (Mock.section "POOLS")];
       "summary" := VList [VDict (Mock.section "SUMMARY")] ]} in
  Mock.batching (batch Mock.allow_all commands true) (world Mock.start)
  = (Ok d, 1%nat) /\
  exists d' : reply,
    multi.1 = Ok d' /\
    d' = <["multicommand" := VBool true]> d /\
    dom d' = dom d ∪ {["multicommand"]} /\
    history multi.2
    = history Mock.start ++ [(batch Mock.allow_all commands true, Ok d)].
Proof.
  split; [reflexivity|].
  exact (multicommand_batched_keys Mock.batching Mock.allow_all
           ["version"; "pools"; "summary"] true Mock.start _ 1%nat eq_refl).
Defined.

(** C6 fails on the code.  The mock answers the batched request with one
    section per command name, and each command on its own with a status
    section and a section in capitals.  The keys of the reply of
    [multicommand], the marker apart, are the three command names; the
    keys of the three individual replies are [STATUS], [VERSION], [POOLS]
    and [SUMMARY]. *)
Lemma multicommand_keys_counterexample :
  exists (d : reply) (s' : state nat),
    multicommand Mock.batching Mock.allow_all ["version"; "pools"; "summary"] true Mock.start
    = (Ok d, s') /\
    (forall s, (send_command Mock.batching "version" None true s).1
               = Ok (Mock.section "VERSION")) /\
    (forall s, (send_command Mock.batching "pools" None true s).1
               = Ok (Mock.section "POOLS")) /\
    (forall s, (send_command Mock.batching "summary" None true s).1
               = Ok (Mock.section "SUMMARY")) /\
    dom d ∖ {["multicommand"]}
    <> dom (Mock.section "VERSION") ∪ dom (Mock.section "POOLS")
       ∪ dom (Mock.section "SUMMARY") /\
    dom d ∖ {["multicommand"]} = {["version"; "pools"; "summary"]}.
Proof.
  eexists _, _. split; [vm_compute; reflexivity|].
  do 3 (split; [intros s; reflexivity|]).
  assert (Hdom : dom (<["multicommand" := VBool true]>
                        ({[ "version" := VList [VDict (Mock.section "VERSION")];
                            "pools" := VList [VDict (Mock.section "POOLS")];
                            "summary" := VList [VDict (Mock.section "SUMMARY")] ]}
                         : reply))
                 ∖ {["multicommand"]}
                 = ({["version"; "pools"; "summary"]} : gset string)).
  { rewrite !dom_insert_L, dom_singleton_L.
    apply set_eq. intros x. rewrite !elem_of_difference, !elem_of_union,
      !elem_of_singleton.
    split; [tauto|]. intros [[->| ->]| ->]; split; auto; discriminate. }
  split.
  - intros Heq.
    assert (Hin : "STATUS" ∈ dom (Mock.section "VERSION")
                    ∪ dom (Mock.section "POOLS") ∪ dom (Mock.section "SUMMARY")).
    { unfold Mock.section. rewrite !dom_insert_L. set_solver. }
    clear Hdom.
    rewrite <- Heq in Hin. apply elem_of_difference in Hin as [Hin _].
    apply elem_of_dom in Hin as [v Hv]. vm_compute in Hv. discriminate Hv.
  - exact Hdom.
Qed.

(** * Further properties *)

(** ** Strings: pieces and decimal numbers *)

Section Pieces.

Variable sep : ascii.

Lemma str_split_app a b :
  str_split sep (a +:+ String sep b) = str_split sep a ++ str_split sep b.
Proof.
  induction a as [|c a IH]; simpl.
  - rewrite Ascii.eqb_refl. reflexivity.
  - destruct (Ascii.eqb c sep); simpl; rewrite IH; [reflexivity|].
    pose proof (str_split_not_nil sep a) as Hne.
    destruct (str_split sep a); [contradiction|reflexivity].
Qed.

(** Splitting a joined line yields the pieces of each word, in order. *)
Lemma str_split_join_pieces (l : list string) :
  l <> [] ->
  str_split sep (str_join (String sep EmptyString) l)
  = concat (str_split sep <$> l).
Proof.
  induction l as [|w l IH]; [congruence|]. intros _.
  destruct l as [|w' l].
  - simpl. rewrite app_nil_r. reflexivity.
  - change (str_join (String sep EmptyString) (w :: w' :: l))
      with (w +:+ String sep (str_join (String sep EmptyString) (w' :: l))).
    rewrite str_split_app, IH by discriminate. reflexivity.
Qed.

Lemma str_app_assoc (a b c : string) : (a +:+ b) +:+ c = a +:+ (b +:+ c).
Proof.
  induction a as [|x a IH]; [reflexivity|].
  change (String x ((a +:+ b) +:+ c) = String x (a +:+ (b +:+ c))).
  rewrite IH. reflexivity.
Qed.

End Pieces.

(** A decimal digit is not a comma. *)
Lemma digit_not_comma x : Ascii.eqb (pretty_N_char x) "," = false.
Proof. unfold pretty_N_char. repeat case_match; reflexivity. Qed.

Lemma pretty_N_go_comma_free x s :
  str_contains "," s = false -> str_contains "," (pretty_N_go x s) = false.
Proof.
  revert s. induction (N.lt_wf_0 x) as [x _ IH]; intros s Hs.
  destruct (decide (x = 0)%N) as [->|Hx]; [rewrite pretty_N_go_0; exact Hs|].
  rewrite pretty_N_go_step by lia. apply IH.
  - apply N.div_lt; lia.
  - simpl. rewrite digit_not_comma. exact Hs.
Qed.

Lemma pretty_N_go_not_empty x s : s <> "" -> pretty_N_go x s <> "".
Proof.
  revert s. induction (N.lt_wf_0 x) as [x _ IH]; intros s Hs.
  destruct (decide (x = 0)%N) as [->|Hx]; [rewrite pretty_N_go_0; exact Hs|].
  rewrite pretty_N_go_step by lia. apply IH; [apply N.div_lt; lia|discriminate].
Qed.

(** [str(z)] holds no comma and is not empty. *)
Lemma str_of_int_comma_free z : str_contains "," (str_of_int z) = false.
Proof.
  unfold str_of_int, pretty, pretty_Z, pretty, pretty_positive, pretty, pretty_N.
  destruct z as [|p|p]; [reflexivity| |]; simpl;
    apply pretty_N_go_comma_free; reflexivity.
Qed.

Lemma str_of_int_not_empty z : str_of_int z <> "".
Proof.
  unfold str_of_int, pretty, pretty_Z, pretty, pretty_positive, pretty, pretty_N.
  destruct z as [|p|p]; [discriminate| |discriminate]. simpl.
  rewrite pretty_N_go_step by lia. apply pretty_N_go_not_empty. discriminate.
Qed.

(** The parameter string of [poolpriority] read back: its pieces are the
    pools, in order. *)
Lemma pools_string_pieces (n : list Z) :
  n <> [] ->
  str_split "," (str_join "," (List.map str_of_int n)) = str_of_int <$> n.
Proof.
  intros Hn. apply (str_split_join ","%char).
  - destruct n; [congruence|discriminate].
  - apply Forall_forall. intros w Hw.
    apply list_elem_of_fmap in Hw as (z & -> & _). apply str_of_int_comma_free.
Qed.

Lemma pools_string_inj (n m : list Z) :
  str_join "," (List.map str_of_int n) = str_join "," (List.map str_of_int m) ->
  n = m.
Proof.
  intros Heq.
  assert (Hone : forall l : list Z, l <> [] ->
            str_join "," (List.map str_of_int l) <> "").
  { intros l Hl Habs. pose proof (pools_string_pieces l Hl) as Hp.
    rewrite Habs in Hp. destruct l as [|z [|z' l]]; try discriminate.
    injection Hp as Hp. symmetry in Hp. exact (str_of_int_not_empty z Hp). }
  destruct (decide (n = [])) as [->|Hn]; destruct (decide (m = [])) as [->|Hm].
  - reflexivity.
  - symmetry in Heq. destruct (Hone m Hm Heq).
  - destruct (Hone n Hn Heq).
  - pose proof (pools_string_pieces n Hn) as Hp.
    rewrite Heq, (pools_string_pieces m Hm) in Hp.
    symmetry. revert Hp. apply (inj (fmap str_of_int)).
Qed.

(** ** The other command methods *)

Section Commands.

Context {World : Type}.
Variable transport : call -> World -> result reply * World.

(** X8: [save] with an empty file name does what [save] without a file name
    does: it sends ["save"] with no parameters.  Any other file name is
    passed on as it is. *)
Theorem save_empty_filename (s : state World) :
  save transport (Some "") s = save transport None s /\
  calls (save transport None s).2 = calls s ++ [Call "save" None true] /\
  (forall f, f <> "" ->
     calls (save transport (Some f) s).2
     = calls s ++ [Call "save" (Some (PStr f)) true]).
Proof.
  split; [reflexivity|]. split.
  - unfold save. simpl. apply send_command_calls.
  - intros f Hf. unfold save. destruct f as [|c f]; [congruence|].
    simpl. apply send_command_calls.
Qed.

(** X9: [poolpriority] sends one parameter string, whose pieces between the
    commas are the pools in decimal, in the order given; without pools the
    string is empty, and is still sent as a parameter.  Two lists of pools
    give the same request only when they are equal. *)
Theorem poolpriority_pieces (n : list Z) (s : state World) :
  exists p,
    calls (poolpriority transport n s).2
    = calls s ++ [Call "poolpriority" (Some (PStr p)) true] /\
    str_split "," p = (if decide (n = []) then [""] else str_of_int <$> n) /\
    forall m, calls (poolpriority transport m s).2
              = calls (poolpriority transport n s).2 <-> m = n.
Proof.
  eexists. unfold poolpriority. split; [apply send_command_calls|]. split.
  - destruct (decide (n = [])) as [->|Hn]; [reflexivity|].
    apply pools_string_pieces, Hn.
  - intros m. rewrite !send_command_calls. split; [|intros ->; reflexivity].
    intros Heq. apply app_inv_head in Heq. injection Heq as Heq.
    apply pools_string_inj, Heq.
Qed.

(** X10: [addpool] with a URL and a user name that hold no comma: the
    parameter string reads back as the URL, the user name, and the pieces
    of the password. *)
Theorem addpool_fields url username password (s : state World) :
  str_contains "," url = false ->
  str_contains "," username = false ->
  exists p,
    calls (addpool transport url username password s).2
    = calls s ++ [Call "addpool" (Some (PStr p)) true] /\
    str_split "," p = url :: username :: str_split "," password.
Proof.
  intros Hu Hn. eexists. unfold addpool. split; [apply send_command_calls|].
  change (url ++ "," ++ username ++ "," ++ password)%string
    with (url +:+ String "," (username +:+ String "," password)).
  rewrite !str_split_app, (str_split_free _ _ Hu), (str_split_free _ _ Hn).
  reflexivity.
Qed.

(** X11: [addpool] does not escape commas: a comma moved from the URL to the
    user name gives the same request. *)
Theorem addpool_comma_shifts_fields a b c password (s : state World) :
  addpool transport (a +:+ "," +:+ b) c password s
  = addpool transport a (b +:+ "," +:+ c) password s.
Proof.
  unfold addpool. do 3 f_equal. rewrite !str_app_assoc. reflexivity.
Qed.

End Commands.

(** ** The reply of the sequential strategy, read off the calls *)

Lemma collected_record (data : reply) done :
  collected data done = foldl record_call data (answered <$> done).
Proof.
  revert data. induction done as [|cr done IH]; intros data; [reflexivity|].
  simpl. apply IH.
Qed.

Lemma last_answered (done : list (string * reply)) :
  warning_for (last (answered <$> done)) = [].
Proof.
  destruct done as [|cr done _] using rev_ind; [reflexivity|].
  rewrite fmap_app. simpl. rewrite last_snoc. reflexivity.
Qed.

(** An entry of the reply comes from a call for that command. *)
Lemma record_call_lookup (data : reply) h (k : string) v :
  foldl record_call data h !! k = Some v ->
  data !! k = Some v \/
  exists x, x ∈ h /\ command x.1 = k /\ v = outcome_entry x.2.
Proof.
  induction h as [|x h IH] using rev_ind; [auto|].
  rewrite foldl_app. simpl. unfold record_call at 1.
  destruct (decide (command x.1 = k)) as [<-|Hne].
  - rewrite lookup_insert_eq. intros [= <-]. right. exists x. set_solver.
  - rewrite lookup_insert_ne by done. intros Hl.
    destruct (IH Hl) as [?|(y & ? & ? & ?)]; [auto|].
    right. exists y. set_solver.
Qed.

(** The entry of a command is what its last call left. *)
Lemma record_call_last (data : reply) h1 x h2 :
  (forall y, y ∈ h2 -> command y.1 <> command x.1) ->
  foldl record_call data (h1 ++ x :: h2) !! command x.1
  = Some (outcome_entry x.2).
Proof.
  induction h2 as [|y h2 IH] using rev_ind; intros Hno.
  - rewrite foldl_app. simpl. apply lookup_insert_eq.
  - rewrite app_comm_cons, app_assoc, foldl_app. simpl. unfold record_call at 1.
    rewrite lookup_insert_ne by (apply Hno; set_solver).
    apply IH. intros z Hz. apply Hno. set_solver.
Qed.

Section Trace.

Context {World : Type}.
Variable transport : call -> World -> result reply * World.
Variable _check_commands : list string -> list string.

Abbreviation x19 := (_x19_multicommand transport).
Abbreviation multi := (multicommand transport _check_commands).
Abbreviation batched := (batch _check_commands).

(** A run of the sequential strategy, by the calls [h] it made: the reply
    is built from them, a warning is logged for the [Exception] that the
    last one raised, and what reaches the caller was raised by the last
    call and is no [Exception]. *)
Lemma x19_multicommand_trace commands (s : state World) :
  exists h : list (call * result reply),
    history (x19 commands s).2 = history s ++ h /\
    log (x19 commands s).2 = log s ++ warning_for (last h) /\
    match (x19 commands s).1 with
    | Ok d => d = foldl record_call ∅ h
    | Raise e => is_Exception e = false /\ exists c, last h = Some (single c, Raise e)
    end.
Proof.
  destruct (for_cmd_in_spec transport commands ∅ s) as [done H].
  unfold _x19_multicommand.
  destruct (for_cmd_in transport commands ∅ s) as [[data raised] s'].
  destruct H as [Hlog H]. destruct raised as [e|].
  - destruct H as (cmd & rest & _ & Hh & ->).
    exists ((answered <$> done) ++ [(single cmd, Raise e)]).
    rewrite foldl_app, <- collected_record, last_snoc.
    destruct e as [msg|msg|msg]; simpl; rewrite ?Hlog, ?app_nil_r; eauto.
  - destruct H as (_ & Hh & ->). exists (answered <$> done). simpl.
    rewrite last_answered, app_nil_r, <- collected_record. done.
Qed.

(** A run of [multicommand] whose batched request raised [APIError], by
    the calls [h] that followed it. *)
Lemma multicommand_trace commands aw (s : state World) msg w :
  transport (batched commands aw) (world s) = (Raise (APIError msg), w) ->
  exists h : list (call * result reply),
    h <> [] /\
    h.*1 `prefix_of`
      (single <$> str_split "+" (str_join "+" (_check_commands commands))) /\
    history (multi commands aw s).2
    = history s ++ (batched commands aw, Raise (APIError msg)) :: h /\
    log (multi commands aw s).2
    = log s ++ LogDebug "(Multicommand) - Handling X19 multicommand."
        :: warning_for (last h) /\
    match (multi commands aw s).1 with
    | Ok d => d = <["multicommand" := VBool true]> (foldl record_call ∅ h)
    | Raise e => is_Exception e = false /\ exists c, last h = Some (single c, Raise e)
    end.
Proof.
  intros Ht. rewrite (multicommand_rejected _ _ _ _ _ _ _ Ht).
  match goal with |- context [x19 ?c ?t] =>
    destruct (x19_multicommand_trace c t) as (h & Hh & Hl & Hr);
    destruct (x19_multicommand_calls transport c t) as (h' & Hh' & Hpre & _ & Hne & _);
    destruct (x19 c t) as [r s'] end.
  simpl in *. rewrite Hh in Hh'. apply app_inv_head in Hh'. subst h'.
  exists h. split; [apply Hne, str_split_not_nil|]. split; [exact Hpre|].
  rewrite Hh, Hl, <- !app_assoc. simpl.
  split; [reflexivity|]. split; [reflexivity|].
  destruct r; [congruence|exact Hr].
Qed.

(** X1: When no command passes the allow-list, [multicommand] still sends a
    request: the empty command.  If that is turned down with [APIError],
    the sequential strategy sends the empty command once more, on its
    own. *)
Theorem multicommand_nothing_validated commands aw (s : state World) :
  _check_commands commands = [] ->
  exists r0 (h : list (call * result reply)),
    history (multi commands aw s).2 = history s ++ (Call "" None aw, r0) :: h /\
    (rejected r0 = false -> h = []) /\
    (rejected r0 = true -> h.*1 = [single ""]).
Proof.
  intros Hnone.
  destruct (multicommand_history transport _check_commands commands aw s)
    as (h & Hh & Hno & Hyes).
  unfold batch in *. rewrite Hnone in *. simpl in *.
  eexists _, h. split; [exact Hh|]. split; [exact Hno|].
  intros Hr. destruct (Hyes Hr) as (s1 & _ & Hx).
  destruct (x19_multicommand_calls transport [""] s1)
    as (h' & Hh' & Hpre & _ & Hne & _).
  rewrite Hx in Hh'. apply app_inv_head in Hh'. subst h'.
  destruct Hpre as [k Hk]. destruct (h.*1) as [|c l] eqn:Hc.
  - destruct h; [destruct Hne; congruence|discriminate].
  - injection Hk as -> Hk. destruct l; [reflexivity|discriminate].
Qed.

(** X2: After a batched request that is turned down, every key of the reply
    other than the marker is one of the pieces of the joined line, and
    holds a list with one reply, or the empty list.  A caller that reads
    the first element of an entry has to expect the empty list. *)
Theorem fallback_reply_shape commands aw (s : state World) msg w d k v :
  transport (batched commands aw) (world s) = (Raise (APIError msg), w) ->
  (multi commands aw s).1 = Ok d ->
  k <> "multicommand" ->
  d !! k = Some v ->
  k ∈ str_split "+" (str_join "+" (_check_commands commands)) /\
  (v = VList [] \/ exists r, v = VList [VDict r]).
Proof.
  intros Ht Hd Hk Hv.
  destruct (multicommand_trace commands aw s msg w Ht)
    as (h & _ & Hpre & _ & _ & Hr).
  rewrite Hd in Hr. subst d. rewrite lookup_insert_ne in Hv by done.
  apply record_call_lookup in Hv as [Hv|(x & Hx & <- & ->)].
  { rewrite lookup_empty in Hv. discriminate. }
  split.
  - destruct Hpre as [rest Hrest].
    assert (Hin : x.1 ∈ h.*1) by (apply list_elem_of_fmap; eauto).
    assert (Hin' : x.1 ∈ single <$> str_split "+"
                     (str_join "+" (_check_commands commands))).
    { rewrite Hrest. apply elem_of_app. auto. }
    apply list_elem_of_fmap in Hin' as (c & -> & Hc). exact Hc.
  - destruct x as [c [r|e]]; simpl; eauto.
Qed.

(** X3: The entry of a command in the reply of [_x19_multicommand] is what
    the last call made for that command left: the one-element list of its
    reply, or the empty list when it raised.  Earlier replies to the same
    command are not kept. *)
Theorem x19_entry_is_last_call commands (s : state World) d h1 c o h2 :
  (x19 commands s).1 = Ok d ->
  history (x19 commands s).2 = history s ++ h1 ++ (single c, o) :: h2 ->
  (forall y, y ∈ h2 -> command y.1 <> c) ->
  d !! c = Some (outcome_entry o).
Proof.
  intros Hd Hh Hno.
  destruct (x19_multicommand_trace commands s) as (h & Hh' & _ & Hr).
  rewrite Hd in Hr. subst d. rewrite Hh in Hh'. apply app_inv_head in Hh'.
  subst h. exact (record_call_last ∅ h1 (single c, o) h2 Hno).
Qed.

(** X5: The sequential strategy cuts at every ["+"]: its calls go through
    the pieces of each validated command, in order, so a command that
    holds a ["+"] is sent in parts. *)
Theorem fallback_cuts_commands_at_plus commands aw (s : state World) :
  _check_commands commands <> [] ->
  exists r0 (h : list (call * result reply)),
    history (multi commands aw s).2 = history s ++ (batched commands aw, r0) :: h /\
    h.*1 `prefix_of`
      (single <$> concat (str_split "+" <$> _check_commands commands)) /\
    (rejected r0 = true -> Forall (fun cr => is_Ok cr.2 = true) h ->
     h.*1 = single <$> concat (str_split "+" <$> _check_commands commands)).
Proof.
  intros Hne.
  destruct (multicommand_history transport _check_commands commands aw s)
    as (h & Hh & Hno & Hyes).
  eexists _, h. split; [exact Hh|].
  rewrite <- (str_split_join_pieces "+"%char _ Hne).
  destruct (rejected (transport (batched commands aw) (world s)).1) eqn:Hr.
  - destruct (Hyes eq_refl) as (s1 & _ & Hx).
    match type of Hx with context [x19 ?c s1] =>
      destruct (x19_multicommand_calls transport c s1)
        as (h' & Hh' & Hpre & _ & _ & Hall) end.
    rewrite Hx in Hh'. apply app_inv_head in Hh'. subst h'. auto.
  - rewrite (Hno eq_refl). split; [apply prefix_nil|discriminate].
Qed.

(** X6: [multicommand] with a single command that the miner always turns
    down does not report the error: the command is sent twice, batched and
    on its own, and the caller gets a reply with an empty list for it. *)
Theorem multicommand_single_rejected commands aw c (s : state World) :
  _check_commands commands = [c] ->
  str_contains "+" c = false ->
  (forall aw' w, rejected (transport (Call c None aw') w).1 = true) ->
  (multi commands aw s).1
  = Ok (<["multicommand" := VBool true]> {[ c := VList [] ]}) /\
  calls (multi commands aw s).2 = calls s ++ [Call c None aw; Call c None true].
Proof.
  intros Hone Hplus Hrej.
  assert (Hb : batched commands aw = Call c None aw).
  { unfold batch. rewrite Hone. reflexivity. }
  pose proof (Hrej aw (world s)) as H0.
  destruct (transport (Call c None aw) (world s)) as [r0 w] eqn:Ht.
  destruct r0 as [|[msg| |]]; try discriminate. rewrite <- Hb in Ht.
  rewrite (multicommand_rejected _ _ _ _ _ _ _ Ht), Hone, Hb.
  change (str_join "+" [c]) with c. rewrite (str_split_free _ _ Hplus).
  unfold _x19_multicommand, for_cmd_in, send_command, calls. simpl.
  pose proof (Hrej true w) as H1.
  destruct (transport (Call c None true) w) as [r1 w1].
  destruct r1 as [|[msg1| |]]; try discriminate. simpl.
  rewrite insert_empty, !fmap_app, <- app_assoc. done.
Qed.

(** X7: [multicommand] never raises [APIError]: what it raises is something
    else. *)
Theorem multicommand_never_raises_APIError commands aw (s : state World) e :
  (multi commands aw s).1 = Raise e -> is_APIError e = false.
Proof.
  destruct (transport (batched commands aw) (world s)) as [[d|e0] w] eqn:Ht.
  - rewrite (multicommand_answered _ _ _ _ _ _ _ Ht). discriminate.
  - destruct (is_APIError e0) eqn:He.
    + destruct e0 as [msg0| |]; try discriminate.
      destruct (multicommand_trace commands aw s msg0 w Ht)
        as (h & _ & _ & _ & _ & Hr).
      intros Habs. rewrite Habs in Hr. destruct Hr as [Hr _].
      destruct e; [discriminate Hr|reflexivity..].
    + rewrite (multicommand_propagates _ _ _ _ _ _ _ Ht He).
      intros [= <-]. exact He.
Qed.

End Trace.

(** ** Further runs against the mock miners *)

Lemma multicommand_nothing_validated_witness :
  let run := multicommand Mock.x19 Mock.allow_none ["summary"] true Mock.start in
  Mock.allow_none ["summary"] = [] /\
  exists r0 (h : list (call * result reply)),
    history run.2 = history Mock.start ++ (Call "" None true, r0) :: h /\
    (rejected r0 = false -> h = []) /\
    (rejected r0 = true -> h.*1 = [single ""]).
Proof.
  split; [reflexivity|].
  exact (multicommand_nothing_validated Mock.x19 Mock.allow_none
           ["summary"] true Mock.start eq_refl).
Defined.

Example x19_run_pools :
  ({[ "summary" := VList [VDict (Mock.section "SUMMARY")];
      "pools" := VList [];
      "multicommand" := VBool true ]} : reply) !! "pools" = Some (VList []).
Proof. vm_compute. reflexivity. Qed.

Lemma fallback_reply_shape_witness :
  let commands := ["summary"; "pools"; "version"] in
  let d : reply :=
    {[ "summary" := VList [VDict (Mock.section "SUMMARY")];
       "pools" := VList [];
       "multicommand" := VBool true ]} in
  Mock.x19 (batch Mock.allow_all commands false) (world Mock.start)
  = (Raise (APIError "invalid command"), 1%nat) /\
  (multicommand Mock.x19 Mock.allow_all commands false Mock.start).1 = Ok d /\
  "pools" <> "multicommand" /\
  d !! "pools" = Some (VList []) /\
  "pools" ∈ str_split "+" (str_join "+" (Mock.allow_all commands)) /\
  (VList [] = VList [] \/ exists r, VList [] = VList [VDict r]).
Proof.
  assert (Hne : "pools" <> "multicommand") by discriminate.
  split; [reflexivity|]. split; [exact (f_equal fst x19_run)|].
  split; [exact Hne|]. split; [exact x19_run_pools|].
  exact (fallback_reply_shape Mock.x19 Mock.allow_all
           ["summary"; "pools"; "version"] false Mock.start
           "invalid command" 1%nat _ "pools" (VList [])
           eq_refl (f_equal fst x19_run) Hne x19_run_pools).
Defined.

Example counting_run :
  _x19_multicommand Mock.counting ["summary"; "summary"] Mock.start
  = (Ok {[ "summary" := VList [VDict {[ "Elapsed" := VInt 1 ]}] ]},
     State 2%nat
       [(single "summary", Ok {[ "Elapsed" := VInt 0 ]});
        (single "summary", Ok {[ "Elapsed" := VInt 1 ]})]
       []).
Proof. vm_compute. reflexivity. Qed.

Lemma x19_entry_is_last_call_witness :
  let run := _x19_multicommand Mock.counting ["summary"; "summary"] Mock.start in
  let first : reply := {[ "Elapsed" := VInt 0 ]} in
  let second : reply := {[ "Elapsed" := VInt 1 ]} in
  let d : reply := {[ "summary" := VList [VDict second] ]} in
  run.1 = Ok d /\
  history run.2
  = history Mock.start ++ [(single "summary", Ok first)]
      ++ (single "summary", Ok second) :: [] /\
  (forall y : call * result reply, y ∈ [] -> command y.1 <> "summary") /\
  d !! "summary" = Some (outcome_entry (Ok second)).
Proof.
  assert (Hno : forall y : call * result reply,
            y ∈ [] -> command y.1 <> "summary").
  { intros y Hy. inversion Hy. }
  split; [exact (f_equal fst counting_run)|].
  split; [exact (f_equal (fun x => history x.2) counting_run)|].
  split; [exact Hno|].
  exact (x19_entry_is_last_call Mock.counting ["summary"; "summary"] Mock.start
           _ [(single "summary", Ok {[ "Elapsed" := VInt 0 ]})] "summary"
           (Ok {[ "Elapsed" := VInt 1 ]}) []
           (f_equal fst counting_run)
           (f_equal (fun x => history x.2) counting_run) Hno).
Defined.

Lemma fallback_cuts_commands_at_plus_witness :
  let commands := ["summary+version"; "pools"] in
  let run := multicommand Mock.x19 Mock.allow_all commands true Mock.start in
  Mock.allow_all commands <> [] /\
  exists r0 (h : list (call * result reply)),
    history run.2
    = history Mock.start ++ (batch Mock.allow_all commands true, r0) :: h /\
    h.*1 `prefix_of`
      (single <$> concat (str_split "+" <$> Mock.allow_all commands)) /\
    (rejected r0 = true -> Forall (fun cr => is_Ok cr.2 = true) h ->
     h.*1 = single <$> concat (str_split "+" <$> Mock.allow_all commands)).
Proof.
  assert (Hne : Mock.allow_all ["summary+version"; "pools"] <> [])
    by discriminate.
  split; [exact Hne|].
  exact (fallback_cuts_commands_at_plus Mock.x19 Mock.allow_all
           ["summary+version"; "pools"] true Mock.start Hne).
Defined.

Example plus_run :
  calls (multicommand Mock.x19 Mock.allow_all ["summary+version"; "pools"] true
           Mock.start).2
  = [Call "summary+version+pools" None true;
     single "summary"; single "version"; single "pools"].
Proof. vm_compute. reflexivity. Qed.

Lemma multicommand_single_rejected_witness :
  let run := multicommand Mock.x19 Mock.allow_all ["pools"] false Mock.start in
  Mock.allow_all ["pools"] = ["pools"] /\
  str_contains "+" "pools" = false /\
  (forall aw' w, rejected (Mock.x19 (Call "pools" None aw') w).1 = true) /\
  run.1 = Ok (<["multicommand" := VBool true]> {[ "pools" := VList [] ]}) /\
  calls run.2
  = calls Mock.start ++ [Call "pools" None false; Call "pools" None true].
Proof.
  split; [reflexivity|]. split; [reflexivity|].
  split; [intros aw' w; reflexivity|].
  exact (multicommand_single_rejected Mock.x19 Mock.allow_all
           ["pools"] false "pools" Mock.start eq_refl eq_refl
           (fun _ _ => eq_refl)).
Defined.

Lemma multicommand_never_raises_APIError_witness :
  (multicommand (Mock.cancelled_at 0) Mock.allow_all ["pools"; "summary"] true
     Mock.start).1
  = Raise (BaseException "CancelledError") /\
  is_APIError (BaseException "CancelledError") = false.
Proof.
  split; [reflexivity|].
  exact (multicommand_never_raises_APIError (Mock.cancelled_at 0) Mock.allow_all
           ["pools"; "summary"] true Mock.start _ eq_refl).
Defined.

Lemma addpool_fields_witness :
  let url := "stratum+tcp://pool.example:3333" in
  let run := addpool Mock.x19 url "worker.1" "x,y" Mock.start in
  str_contains "," url = false /\
  str_contains "," "worker.1" = false /\
  exists p,
    calls run.2 = calls Mock.start ++ [Call "addpool" (Some (PStr p)) true] /\
    str_split "," p = url :: "worker.1" :: str_split "," "x,y".
Proof.
  split; [reflexivity|]. split; [reflexivity|].
  exact (addpool_fields Mock.x19 "stratum+tcp://pool.example:3333" "worker.1"
           "x,y" Mock.start eq_refl eq_refl).
Defined.
